(** * gen_filecmp: file and directory comparison

    A shallow embedding of [gen_filecmp.py].  Every definition below follows
    the Python function of the same name, statement by statement.  The
    process-wide dictionary [_cache] is threaded explicitly, exceptions are
    values of [exn], and a generator is the list of the items it yields
    together with the exception that ended it, if any.

    Modelled: [clear_cache], [cmp], [_metadata], [_do_cmp], [cmpfiles],
    [_cmp], [left_only], [right_only], [_filter_only], [common_names],
    [common_dirs], [common_files], [common_funny].
    [dircmp] has an empty body; [_filter_list], [same_files], [diff_files]
    and [funny_files] (lines 126, 165, 169 and 173) are not well-formed
    Python and have no model. *)

From Stdlib Require Import ZArith Lia.
From Stdlib Require Import Strings.Ascii Strings.Byte.
From stdpp Require Import base gmap strings pretty list fin_maps.
From Equations Require Import Equations.

Local Open Scope Z_scope.

(** ** Python values and exceptions *)

(** The exception classes the module can raise or let through.  [NameError]
    and [TypeError] are not subclasses of [OSError]. *)
Inductive exn := OSError | NameError | TypeError.

Inductive result (A : Type) :=
  | Return (a : A)
  | Raise (e : exn).
Arguments Return {A} a.
Arguments Raise {A} e.

#[global] Instance byte_eq_dec : EqDecision byte := Byte.byte_eq_dec.

(** The objects [common_names] puts in tuples: strings, and pairs of them. *)
Inductive pyval :=
  | PStr (s : string)
  | PTuple2 (v w : pyval).

(** [v == w]: a tuple never equals a string; tuples compare item by item. *)
Fixpoint py_eq (v w : pyval) : bool :=
  match v, w with
  | PStr s, PStr t => bool_decide (s = t)
  | PTuple2 v1 v2, PTuple2 w1 w2 => py_eq v1 w1 && py_eq v2 w2
  | _, _ => false
  end.

(** [x in t] for a 2-tuple [t]: some item of [t] equals [x]. *)
Definition py_in (x : pyval) (t : pyval * pyval) : bool :=
  py_eq t.1 x || py_eq t.2 x.

(** ** The file system as the module sees it *)

(** [os.stat_result].  The times are floats in Python; the module only
    tests [st_mtime] for equality, and a time is stood for by an integer. *)
Record stat_result := {
  st_mode : Z;
  st_ino : Z;
  st_dev : Z;
  st_nlink : Z;
  st_uid : Z;
  st_gid : Z;
  st_size : Z;
  st_atime : Z;
  st_mtime : Z;
  st_ctime : Z
}.

(** What a path leads to: its stat record, and its bytes when it can be
    opened for reading. *)
Record inode := {
  i_stat : stat_result;
  i_data : option (list byte)
}.

Abbreviation filesystem := (gmap string inode).

(** [os.stat(path)]: [OSError] when the path cannot be stat'd. *)
Definition stat (fs : filesystem) (path : string) : result stat_result :=
  match fs !! path with
  | Some i => Return (i_stat i)
  | None => Raise OSError
  end.

(** [open(path, 'rb')]: the bytes still to be read, or [OSError]. *)
Definition open_rb (fs : filesystem) (path : string) : result (list byte) :=
  match fs !! path with
  | Some {| i_data := Some data |} => Return data
  | _ => Raise OSError
  end.

(** [stat.S_IFMT], [S_IFREG], [S_IFDIR], [S_ISREG], [S_ISDIR]. *)
Definition S_IFMT (mode : Z) : Z := Z.land mode 0xF000.
Definition S_IFREG : Z := 0x8000.
Definition S_IFDIR : Z := 0x4000.
Definition S_ISREG (mode : Z) : bool := S_IFMT mode =? S_IFREG.
Definition S_ISDIR (mode : Z) : bool := S_IFMT mode =? S_IFDIR.

(** [os.path]: the two functions the module imports. *)
Class OsPath := {
  normcase : string → string;
  join : string → string → string
}.

Definition endswith_sep (s : string) : bool :=
  match reverse (String.list_ascii_of_string s) with
  | c :: _ => bool_decide (c = "/"%char)
  | [] => false
  end.

(** [posixpath]: [normcase] is the identity; [join] as in the library. *)
Definition posix_join (a b : string) : string :=
  if String.prefix "/" b then b
  else if bool_decide (a = "") || endswith_sep a then a +:+ b
  else a +:+ "/" +:+ b.

Definition posixpath : OsPath := {| normcase := id; join := posix_join |}.

(** Iterating a [str] yields its characters as one-character strings. *)
Definition iter_str (s : string) : list string :=
  (λ c, String c EmptyString) <$> String.list_ascii_of_string s.

(** ** The cache and the monad of the module's functions *)

(** [_cache]: (filename_0, filename_1) to the outcome of [_do_cmp]. *)
Abbreviation cache := (gmap (string * string) bool).

(** A computation reads and updates [_cache] and returns or raises. *)
Definition M (A : Type) : Type := cache → result A * cache.

#[global] Instance M_ret : MRet M := λ A a c, (Return a, c).
#[global] Instance M_bind : MBind M := λ A B f m c,
  match m c with
  | (Return a, c') => f a c'
  | (Raise e, c') => (Raise e, c')
  end.

Definition raise {A} (e : exn) : M A := λ c, (Raise e, c).

Definition lift {A} (r : result A) : M A := λ c, (r, c).

(** [x or y] on bools: [y] is evaluated only when [x] is false. *)
Definition py_or (x : bool) (y : M bool) : M bool :=
  if x then mret true else y.

(** [try: m except OSError: h]. *)
Definition except_OSError {A} (m h : M A) : M A := λ c,
  match m c with
  | (Raise OSError, c') => h c'
  | r => r
  end.

Definition cache_get (k : string * string) : M (option bool) :=
  λ c, (Return (c !! k), c).
Definition cache_len : M Z := λ c, (Return (Z.of_nat (size c)), c).
Definition cache_setitem (k : string * string) (v : bool) : M unit :=
  λ c, (Return tt, <[k := v]> c).

(** ** cmp and its helpers *)

Definition BUFSIZE : nat := (8 * 1024)%nat.

Definition clear_cache : M unit := λ _, (Return tt, ∅).

Definition _metadata (metadata : stat_result) : Z * Z * Z :=
  (S_IFMT (st_mode metadata), st_size metadata, st_mtime metadata).

(** A value together with the proof that it is the value of [a]: lets a
    branch remember which way its test went. *)
Definition inspect {A} (a : A) : {b | a = b} := exist _ a eq_refl.

(** The [while True] loop of [_do_cmp] on what is left to read of the two
    files: [fp.read(BUFSIZE)] returns the next [BUFSIZE] bytes, fewer at the
    end of the file, and moves the position past them. *)
Equations? _do_cmp_loop (fp1 fp2 : list byte) : bool by wf (length fp1) lt :=
  _do_cmp_loop fp1 fp2
    with inspect (bool_decide (take BUFSIZE fp1 = take BUFSIZE fp2)) := {
    | exist _ false Hdiff => false
    | exist _ true Hsame
        with inspect (bool_decide (take BUFSIZE fp1 = [])) := {
        | exist _ true Heof => true
        | exist _ false Hmore =>
            _do_cmp_loop (drop BUFSIZE fp1) (drop BUFSIZE fp2) } }.
Proof.
  (* a non-empty chunk was read, so strictly less is left to read *)
  apply bool_decide_eq_false in Hmore. rewrite length_drop.
  assert (0 < BUFSIZE)%nat by (unfold BUFSIZE; lia).
  destruct fp1 as [|b fp1]; [by rewrite take_nil in Hmore|].
  cbn [length]. lia.
Qed.

Definition _do_cmp (fs : filesystem) (filename_1 filename_2 : string) : M bool :=
  fp1 ← lift (open_rb fs filename_1);
  fp2 ← lift (open_rb fs filename_2);
  mret (_do_cmp_loop fp1 fp2).

(** [metadata_2] is read on line 56 and bound nowhere: not in [cmp], not at
    module level, not in builtins.  Evaluating it raises [NameError]. *)
Definition metadata_2 : M (Z * Z * Z) := raise NameError.

(** Lines 62 to 68 of [cmp]: the cache lookup and, on a miss, the content
    comparison whose outcome is stored. *)
Definition cmp_cached (fs : filesystem) (compare_tuple : string * string) : M bool :=
  outcome ← cache_get compare_tuple;
  match outcome with
  | Some outcome => mret outcome
  | None =>
      n ← cache_len;
      (if 100 <? n then clear_cache else mret tt);;
      outcome ← _do_cmp fs compare_tuple.1 compare_tuple.2;
      cache_setitem compare_tuple outcome;;
      mret outcome
  end.

Definition cmp (fs : filesystem) (filename_0 filename_1 : string) (shallow : bool)
  : M bool :=
  st_0 ← lift (stat fs filename_0);
  let metadata_0 := _metadata st_0 in
  st_1 ← lift (stat fs filename_1);
  let metadata_1 := _metadata st_1 in
  not_regular ←
    py_or (negb (metadata_0.1.1 =? S_IFREG))
          (m ← metadata_2; mret (negb (m.1.1 =? S_IFREG)));
  if (not_regular : bool) then mret false
  else if shallow && bool_decide (metadata_0 = metadata_1) then mret true
  else if negb (metadata_0.1.2 =? metadata_1.1.2) then mret false
  else cmp_cached fs (filename_0, filename_1).

(** ** cmpfiles *)

(** [_cmp]: 0 for equal, 1 for different, 2 when [cmp] raised [OSError].
    [abs] of a bool is 0 or 1, [not] of it a bool again, used as an index. *)
Definition _cmp (fs : filesystem) (a b : string) (shallow : bool) : M Z :=
  except_OSError
    (r ← cmp fs a b shallow; mret (Z.b2z (Z.abs (Z.b2z r) =? 0)))
    (mret 2).

(** [result[i] = x] on a tuple: tuples do not support item assignment. *)
Definition tuple_setitem {T} (t : T) (i : Z) (x : string) : result T :=
  Raise TypeError.

Abbreviation bucket3 := (option string * option string * option string)%type.

(** What a generator did: the items it yielded, in order, and the exception
    that ended it ([None] when it ran to its end). *)
Definition gen (A : Type) : Type := list A * option exn.

(** One pass of the loop body of [cmpfiles]. *)
Definition cmpfiles_body `{OsPath} (fs : filesystem) (a b : string)
    (shallow : bool) (x : string) : M bucket3 :=
  let result : bucket3 := (None, None, None) in
  i ← _cmp fs (join a x) (join b x) shallow;
  lift (tuple_setitem result i x).

Fixpoint cmpfiles `{OsPath} (fs : filesystem) (a b : string)
    (common : list string) (shallow : bool) (c : cache) : gen bucket3 * cache :=
  match common with
  | [] => (([], None), c)
  | x :: common' =>
      match cmpfiles_body fs a b shallow x c with
      | (Raise e, c') => (([], Some e), c')
      | (Return result, c') =>
          let '((rest, e), c'') := cmpfiles fs a b common' shallow c' in
          ((result :: rest, e), c'')
      end
  end.

(** ** The directory partitioner *)

#[global] Instance result_ret : MRet result := λ A a, Return a.
#[global] Instance result_bind : MBind result := λ A B f r,
  match r with
  | Return a => f a
  | Raise e => Raise e
  end.

(** [for x in xs: body], where a pass of the body yields the items
    [body x], or raises. *)
Fixpoint for_yield {A B} (xs : list A) (body : A → result (list B)) : gen B :=
  match xs with
  | [] => ([], None)
  | x :: xs' =>
      match body x with
      | Raise e => ([], Some e)
      | Return ys => let '(zs, e) := for_yield xs' body in (ys ++ zs, e)
      end
  end.

(** [b in a] for the two tuples [common_names] builds: [a]'s items are
    strings and [b] is a tuple. *)
Definition tuple_in (b a : string * string) : bool :=
  py_in (PTuple2 (PStr b.1) (PStr b.2)) (PStr a.1, PStr a.2).

(** [l] and [r] are the items the two arguments give when iterated. *)
Definition common_names `{OsPath} (l r : list string) : list string :=
  (λ '(a, b), if tuple_in b a then a.2 else a.1)
    <$> zip (zip (normcase <$> l) l) (zip (normcase <$> r) r).

(** [left] and [right] are joined with a name and stat'd, so they are
    [str] paths; [common_names] iterates them, character by character. *)
Definition common_dirs `{OsPath} (fs : filesystem) (left right : string)
  : gen string :=
  for_yield (common_names (iter_str left) (iter_str right)) (λ name,
    st ← stat fs (join left name);
    mret (if S_ISDIR (S_IFMT (st_mode st)) then [name] else [])).

Definition common_files `{OsPath} (fs : filesystem) (left right : string)
  : gen string :=
  for_yield (common_names (iter_str left) (iter_str right)) (λ name,
    st ← stat fs (join left name);
    mret (if S_ISREG (S_IFMT (st_mode st)) then [name] else [])).

Definition common_funny `{OsPath} (fs : filesystem) (left right : string)
  : gen string :=
  for_yield (common_names (iter_str left) (iter_str right)) (λ name,
    st_a ← stat fs (join left name);
    let a_type := S_IFMT (st_mode st_a) in
    st_b ← stat fs (join right name);
    let b_type := S_IFMT (st_mode st_b) in
    mret (if negb (a_type =? b_type) then [name]
          else if negb (S_ISREG a_type) then [name]
          else if negb (S_ISDIR a_type) then [name]
          else [])).

(** ** left_only and right_only *)

(** What [_filter_only] can be given where it iterates, tests membership
    and indexes: a [str], a list of [str], or a dict from [str] to [str],
    its items in insertion order. *)
Inductive container :=
  | CStr (s : string)
  | CList (l : list string)
  | CDict (d : list (string * string)).

(** [iter(c)]: characters, items, keys. *)
Definition py_iter (c : container) : list string :=
  match c with
  | CStr s => iter_str s
  | CList l => l
  | CDict d => d.*1
  end.

(** [c.__contains__(x)] for a [str] [x]: substring, item, key. *)
Definition py_contains (c : container) (x : string) : bool :=
  match c with
  | CStr s => bool_decide (is_Some (String.index 0 x s))
  | CList l => bool_decide (x ∈ l)
  | CDict d => bool_decide (x ∈ d.*1)
  end.

(** What [c.__getitem__(x)] raises for a [str] [x]: [TypeError] on a [str]
    or a list, whose indices are integers, [KeyError] on a dict without the
    key. *)
Inductive getitem_exn := GetitemTypeError | KeyError.

Definition dict_lookup (d : list (string * string)) (x : string) : option string :=
  (λ found, found.2.2) <$> list_find (λ kv, kv.1 = x) d.

Definition py_getitem (c : container) (x : string) : getitem_exn + string :=
  match c with
  | CStr _ => inl GetitemTypeError
  | CList _ => inl GetitemTypeError
  | CDict d =>
      match dict_lookup d x with
      | Some v => inr v
      | None => inl KeyError
      end
  end.

(** [map(a.__getitem__, filterfalse(b.__contains__, a))], item by item as
    the [for] loop of [_filter_only] draws from it. *)
Fixpoint _filter_only_loop (a b : container) (items : list string)
  : list string * option getitem_exn :=
  match items with
  | [] => ([], None)
  | k :: items' =>
      if py_contains b k then _filter_only_loop a b items'
      else
        match py_getitem a k with
        | inl e => ([], Some e)
        | inr x =>
            let '(rest, e) := _filter_only_loop a b items' in (x :: rest, e)
        end
  end.

Definition _filter_only (a b : container) : list string * option getitem_exn :=
  _filter_only_loop a b (py_iter a).

Definition left_only (left right : container) := _filter_only left right.

Definition right_only (right left : container) := _filter_only right left.

(** ** Sequences of cache lookups *)

(** The cache after the calls of [calls], in order, each on the file system
    of its time; results and exceptions of the calls are dropped. *)
Fixpoint run_cached (calls : list (filesystem * (string * string))) (c : cache)
  : cache :=
  match calls with
  | [] => c
  | (fs, compare_tuple) :: calls' =>
      run_cached calls' (cmp_cached fs compare_tuple c).2
  end.


(** The full-buffer comparison of the specification: both files are read
    whole and the two buffers compared. *)
Definition full_buffer_cmp (fs : filesystem) (filename_1 filename_2 : string)
  : M bool :=
  buffer_1 ← lift (open_rb fs filename_1);
  buffer_2 ← lift (open_rb fs filename_2);
  mret (bool_decide (buffer_1 = buffer_2)).

(** Every entry of the cache is the answer the bytes of its two files give
    on the file system [fs]. *)
Definition cache_agrees (fs : filesystem) (c : cache) : Prop :=
  ∀ k outcome, c !! k = Some outcome →
    ∃ data_1 data_2,
      open_rb fs k.1 = Return data_1 ∧ open_rb fs k.2 = Return data_2 ∧
      outcome = bool_decide (data_1 = data_2).

(** ** Sample file systems *)

Definition mk_stat (mode uid size mtime : Z) : stat_result :=
  {| st_mode := mode; st_ino := 0; st_dev := 0; st_nlink := 1;
     st_uid := uid; st_gid := uid; st_size := size;
     st_atime := 0; st_mtime := mtime; st_ctime := 0 |}.

(** A regular file, mode 0o100644. *)
Definition regular (data : list byte) (mtime : Z) : inode :=
  {| i_stat := mk_stat 0x81A4 0 (Z.of_nat (length data)) mtime;
     i_data := Some data |}.

(** A directory, mode 0o040755. *)
Definition directory : inode :=
  {| i_stat := mk_stat 0x41ED 0 4096 0; i_data := None |}.

(** Directories [a] and [b], each with a subdirectory [a]; two files of the
    same size and time with different bytes, and a copy of the first. *)
Definition sample_fs : filesystem :=
  {[ "a" := directory; "b" := directory;
     "a/a" := directory; "b/a" := directory;
     "p" := regular ["h"; "i"]%byte 5;
     "q" := regular ["h"; "o"]%byte 5;
     "r" := regular ["h"; "i"]%byte 7 ]}.

(** [a/a] is a directory and [b/a] a regular file. *)
Definition mixed_fs : filesystem :=
  {[ "a" := directory; "b" := directory;
     "a/a" := directory; "b/a" := regular [] 0 ]}.

(** 101 distinct pairs of empty regular files. *)
Definition numbered (i : nat) : string := "f" +:+ pretty i.
Definition distinct_pairs : list (string * string) :=
  (λ i, (numbered i, "g")) <$> seq 0 101.
Definition empty_files : filesystem :=
  <["g" := regular [] 0]>
    (list_to_map ((λ i, (numbered i, regular [] 0)) <$> seq 0 101)).

(** [q] rewritten to hold the bytes of [p], later. *)
Definition sample_fs_later : filesystem :=
  <["q" := regular ["h"; "i"]%byte 9]> sample_fs.

(** In [ab], [a] is a directory and [b] is missing. *)
Definition partial_fs : filesystem :=
  {[ "ab" := directory; "xy" := directory; "ab/a" := directory ]}.

(** Two listings as dicts from the normalized to the original name. *)
Definition left_names : list (string * string) :=
  [("readme", "ReadMe"); ("src", "src"); ("notes", "Notes")].
Definition right_names : list (string * string) :=
  [("src", "SRC"); ("license", "License")].

(** [c/c] is a regular file on the left and missing on the right. *)
Definition files_fs : filesystem :=
  {[ "c" := directory; "d" := directory; "c/c" := regular [] 0 ]}.

(** [sample_fs] after [p] was made private and given to another owner. *)
Definition sample_fs_private : filesystem :=
  <["p" := {| i_stat := mk_stat 0x8180 1000 2 5;
              i_data := Some ["h"; "i"]%byte |}]> sample_fs.

(** * Properties *)

(** ** The stat signature *)

Ltac unfold_M :=
  unfold mbind, M_bind, mret, M_ret, lift, raise, py_or in *.

(** Permission, setuid, setgid and sticky bits are the low twelve bits of
    [st_mode]; [S_IFMT] does not see them. *)
Lemma S_IFMT_permission_bits mode perm :
  0 ≤ perm < 0x1000 →
  S_IFMT (Z.lor (Z.land mode 0xF000) perm) = S_IFMT mode.
Proof.
  intros Hperm. unfold S_IFMT. rewrite Z.land_lor_distr_l.
  rewrite <- Z.land_assoc, Z.land_diag.
  assert (Z.land perm 0xF000 = 0) as ->; [|apply Z.lor_0_r].
  apply Z.bits_inj'. intros n Hn. rewrite Z.land_spec, Z.bits_0.
  destruct (decide (n < 12)) as [Hlt|Hge].
  - apply andb_false_intro2.
    assert (n ∈ (Z.of_nat <$> seq 0 12)) as Hin.
    { apply list_elem_of_fmap. exists (Z.to_nat n). split; [lia|].
      apply elem_of_seq. lia. }
    cbn in Hin. set_unfold. by repeat destruct Hin as [->|Hin].
  - apply andb_false_intro1. apply Z.bits_above_log2; [lia|].
    destruct (decide (perm = 0)) as [->|]; [cbn; lia|].
    assert (Z.log2 perm < 12); [|lia].
    apply Z.log2_lt_pow2; lia.
Qed.

(** C10: the signature is made of the file-type bits of [st_mode], of
    [st_size] and of [st_mtime] and of nothing else: two stat results that
    agree on these three values have the same signature, whatever their
    permission bits, owner, group, inode, link count and other times are. *)
Theorem metadata_depends_only_on_type_size_mtime (s1 s2 : stat_result) :
  S_IFMT (st_mode s1) = S_IFMT (st_mode s2) →
  st_size s1 = st_size s2 →
  st_mtime s1 = st_mtime s2 →
  _metadata s1 = _metadata s2.
Proof. unfold _metadata. by intros -> -> ->. Qed.

(** A file made private and given to another owner keeps its signature. *)
Lemma metadata_chmod_chown_witness :
  let s1 := mk_stat 0x81A4 0 2 5 in
  let s2 := mk_stat 0x8180 1000 2 5 in
  s1 ≠ s2 ∧ _metadata s1 = _metadata s2.
Proof.
  split; [discriminate|].
  apply (metadata_depends_only_on_type_size_mtime
           (mk_stat 0x81A4 0 2 5) (mk_stat 0x8180 1000 2 5)); reflexivity.
Defined.

(** ** cmp *)

(** What a call of [cmp] can do: the two [stat] calls come first, then the
    test of line 56, which either returns [False] or reads [metadata_2]. *)
Lemma cmp_stat_0_fails fs f0 f1 shallow c :
  stat fs f0 = Raise OSError → cmp fs f0 f1 shallow c = (Raise OSError, c).
Proof. intros Hst. unfold cmp. unfold_M. by rewrite Hst. Qed.

Lemma cmp_stat_1_fails fs f0 f1 shallow c st_0 :
  stat fs f0 = Return st_0 → stat fs f1 = Raise OSError →
  cmp fs f0 f1 shallow c = (Raise OSError, c).
Proof. intros Hst0 Hst1. unfold cmp. unfold_M. by rewrite Hst0, Hst1. Qed.

Lemma cmp_first_not_regular fs f0 f1 shallow c st_0 st_1 :
  stat fs f0 = Return st_0 → stat fs f1 = Return st_1 →
  S_IFMT (st_mode st_0) ≠ S_IFREG →
  cmp fs f0 f1 shallow c = (Return false, c).
Proof.
  intros Hst0 Hst1 Hkind. unfold cmp. unfold_M. rewrite Hst0, Hst1. cbn.
  by destruct (Z.eqb_spec (S_IFMT (st_mode st_0)) S_IFREG).
Qed.

Lemma cmp_first_regular fs f0 f1 shallow c st_0 st_1 :
  stat fs f0 = Return st_0 → stat fs f1 = Return st_1 →
  S_IFMT (st_mode st_0) = S_IFREG →
  cmp fs f0 f1 shallow c = (Raise NameError, c).
Proof.
  intros Hst0 Hst1 Hkind. unfold cmp. unfold_M. rewrite Hst0, Hst1. cbn.
  rewrite Hkind. reflexivity.
Qed.

Lemma stat_cases fs path :
  stat fs path = Raise OSError ∨ ∃ st, stat fs path = Return st.
Proof. unfold stat. destruct (fs !! path); eauto. Qed.

(** [cmp] has three outcomes and leaves the cache as it found it. *)
Lemma cmp_outcomes fs f0 f1 shallow c :
  cmp fs f0 f1 shallow c = (Raise OSError, c) ∨
  cmp fs f0 f1 shallow c = (Return false, c) ∨
  cmp fs f0 f1 shallow c = (Raise NameError, c).
Proof.
  destruct (stat_cases fs f0) as [H0|[st_0 H0]];
    [left; by apply cmp_stat_0_fails|].
  destruct (stat_cases fs f1) as [H1|[st_1 H1]];
    [left; by eapply cmp_stat_1_fails|].
  destruct (decide (S_IFMT (st_mode st_0) = S_IFREG)).
  - right; right. by eapply cmp_first_regular.
  - right; left. by eapply cmp_first_not_regular.
Qed.

(** Of the file system, [cmp] reads the two signatures and, through
    [_do_cmp], the bytes: on two file systems that agree on these it does
    the same.  A change of permissions or of owner is such a change. *)
Lemma cmp_reads_signatures_only fs fs' f0 f1 shallow c :
  (∀ f, f ∈ [f0; f1] →
     (st ← stat fs f; mret (_metadata st))
     = (st ← stat fs' f; mret (_metadata st))) →
  (∀ f, open_rb fs f = open_rb fs' f) →
  cmp fs f0 f1 shallow c = cmp fs' f0 f1 shallow c.
Proof.
  intros Hsig Hopen.
  pose proof (Hsig f0 ltac:(set_solver)) as H0.
  pose proof (Hsig f1 ltac:(set_solver)) as H1.
  assert (∀ k, cmp_cached fs k c = cmp_cached fs' k c) as Hcached.
  { intros k. unfold cmp_cached, _do_cmp. unfold_M.
    by rewrite !Hopen. }
  unfold cmp. unfold_M.
  unfold mbind, result_bind, mret, result_ret in H0, H1.
  destruct (stat fs f0) as [s0|e0], (stat fs' f0) as [s0'|e0'];
    try discriminate; [|by injection H0 as ->].
  destruct (stat fs f1) as [s1|e1], (stat fs' f1) as [s1'|e1'];
    try discriminate; [|by injection H1 as ->].
  assert (_metadata s0 = _metadata s0') as -> by congruence.
  assert (_metadata s1 = _metadata s1') as -> by congruence.
  by repeat case_match.
Qed.

(** C8: when [stat] fails on either path, [cmp] raises [OSError] to its
    caller: it returns no boolean, and the cache is untouched. *)
Theorem cmp_propagates_stat_error fs f0 f1 shallow c :
  stat fs f0 = Raise OSError ∨ stat fs f1 = Raise OSError →
  cmp fs f0 f1 shallow c = (Raise OSError, c).
Proof.
  intros [H0|H1]; [by apply cmp_stat_0_fails|].
  destruct (stat_cases fs f0) as [H0|[st_0 H0]].
  - by apply cmp_stat_0_fails.
  - by eapply cmp_stat_1_fails.
Qed.

(** A missing second path, the first one being a regular file. *)
Lemma cmp_propagates_stat_error_witness :
  cmp sample_fs "p" "missing" false ∅ = (Raise OSError, ∅).
Proof.
  apply (cmp_propagates_stat_error sample_fs "p" "missing" false ∅).
  right. reflexivity.
Defined.

(** C1: comparing a regular file with itself does not return [True]: the
    test of line 56 reads the unbound name [metadata_2] as soon as the first
    path is a regular file, and [cmp] raises [NameError], shallow or not. *)
Theorem cmp_same_regular_file_raises fs p shallow c st :
  stat fs p = Return st →
  S_IFMT (st_mode st) = S_IFREG →
  cmp fs p p shallow c = (Raise NameError, c).
Proof. intros Hst Hreg. by eapply cmp_first_regular. Qed.

Lemma cmp_same_regular_file_raises_witness :
  cmp sample_fs "p" "p" true ∅ = (Raise NameError, ∅) ∧
  cmp sample_fs "p" "p" false ∅ = (Raise NameError, ∅).
Proof.
  split.
  - apply (cmp_same_regular_file_raises sample_fs "p" true ∅
             (i_stat (regular ["h"; "i"]%byte 5))); reflexivity.
  - apply (cmp_same_regular_file_raises sample_fs "p" false ∅
             (i_stat (regular ["h"; "i"]%byte 5))); reflexivity.
Defined.

(** C6: a regular first path compared with a path that is not a regular
    file does not give [False]: [cmp] raises [NameError] before it looks at
    the second signature.  ([cmp_first_not_regular] is the half of the claim
    the code keeps: a first path that is not regular gives [False].) *)
Theorem cmp_second_not_regular_raises fs f0 f1 shallow c st_0 st_1 :
  stat fs f0 = Return st_0 → stat fs f1 = Return st_1 →
  S_IFMT (st_mode st_0) = S_IFREG →
  S_IFMT (st_mode st_1) ≠ S_IFREG →
  cmp fs f0 f1 shallow c = (Raise NameError, c).
Proof. intros Hst0 Hst1 Hreg _. by eapply cmp_first_regular. Qed.

Lemma cmp_second_not_regular_raises_witness :
  cmp sample_fs "p" "a" true ∅ = (Raise NameError, ∅).
Proof.
  apply (cmp_second_not_regular_raises sample_fs "p" "a" true ∅
           (i_stat (regular ["h"; "i"]%byte 5)) (i_stat directory));
    [reflexivity | reflexivity | reflexivity | discriminate].
Defined.

(** C7: two regular files with the same signature, compared with
    [shallow=True], do not give [True]: [cmp] raises [NameError] on line 56,
    before the shallow test of line 58. *)
Theorem cmp_shallow_same_signature_raises fs f0 f1 c st_0 st_1 :
  stat fs f0 = Return st_0 → stat fs f1 = Return st_1 →
  S_IFMT (st_mode st_0) = S_IFREG →
  _metadata st_0 = _metadata st_1 →
  cmp fs f0 f1 true c = (Raise NameError, c).
Proof. intros Hst0 Hst1 Hreg _. by eapply cmp_first_regular. Qed.

(** [p] and [q]: same kind, size and time, different bytes. *)
Lemma cmp_shallow_same_signature_raises_witness :
  cmp sample_fs "p" "q" true ∅ = (Raise NameError, ∅).
Proof.
  apply (cmp_shallow_same_signature_raises sample_fs "p" "q" ∅
           (i_stat (regular ["h"; "i"]%byte 5))
           (i_stat (regular ["h"; "o"]%byte 5))); reflexivity.
Defined.

(** ** The content comparator *)

Lemma BUFSIZE_pos : (0 < BUFSIZE)%nat.
Proof. unfold BUFSIZE. lia. Qed.

(** Only the end of the file gives an empty chunk. *)
Lemma read_empty_eof (fp : list byte) : take BUFSIZE fp = [] → fp = [].
Proof.
  intros [Hn|Hfp]%take_nil_inv; [|done].
  pose proof BUFSIZE_pos. lia.
Qed.

(** Two files are equal when their next chunks and what follows them are. *)
Lemma chunks_eq (n : nat) (fp1 fp2 : list byte) :
  take n fp1 = take n fp2 → drop n fp1 = drop n fp2 → fp1 = fp2.
Proof.
  intros Htake Hdrop.
  by rewrite <- (take_drop n fp1), <- (take_drop n fp2), Htake, Hdrop.
Qed.

(** The chunked loop decides equality of what the two files still hold. *)
Lemma _do_cmp_loop_spec (fp1 fp2 : list byte) :
  _do_cmp_loop fp1 fp2 = bool_decide (fp1 = fp2).
Proof.
  funelim (_do_cmp_loop fp1 fp2).
  - (* the chunks differ *)
    pose proof (proj1 (bool_decide_eq_false _) Hdiff) as Hne.
    symmetry. apply bool_decide_eq_false. by intros ->.
  - (* both chunks are empty: both files are at their end *)
    pose proof (proj1 (bool_decide_eq_true _) Hsame) as Heq.
    pose proof (proj1 (bool_decide_eq_true _) Heof) as Hnil.
    symmetry. apply bool_decide_eq_true.
    rewrite (read_empty_eof fp1), (read_empty_eof fp2); congruence.
  - (* equal non-empty chunks: the answer is that of the rest *)
    pose proof (proj1 (bool_decide_eq_true _) Hsame) as Heq.
    match goal with IH : _do_cmp_loop _ _ = bool_decide _ |- _ => rewrite IH end.
    apply bool_decide_ext. split; [by apply chunks_eq | by intros ->].
Qed.

(** [_do_cmp] and the full-buffer comparison are the same computation,
    failures to open included. *)
Lemma _do_cmp_full_buffer fs filename_1 filename_2 c :
  _do_cmp fs filename_1 filename_2 c = full_buffer_cmp fs filename_1 filename_2 c.
Proof.
  unfold _do_cmp, full_buffer_cmp. unfold_M.
  destruct (open_rb fs filename_1) as [fp1|]; [|done].
  destruct (open_rb fs filename_2) as [fp2|]; [|done].
  by rewrite _do_cmp_loop_spec.
Qed.

(** C2: for two files that open, with contents [data_1] and [data_2] of any
    size, the chunked comparator returns (it neither raises nor loops), its
    answer is [True] exactly when the contents are the same bytes, lengths
    included, and it is the answer of the full-buffer comparison. *)
Theorem do_cmp_decides_content_equality fs filename_1 filename_2 data_1 data_2 c :
  open_rb fs filename_1 = Return data_1 →
  open_rb fs filename_2 = Return data_2 →
  ∃ outcome : bool,
    _do_cmp fs filename_1 filename_2 c = (Return outcome, c) ∧
    (outcome = true ↔ data_1 = data_2) ∧
    full_buffer_cmp fs filename_1 filename_2 c = (Return outcome, c).
Proof.
  intros Hopen1 Hopen2. exists (bool_decide (data_1 = data_2)).
  split; [|split].
  - unfold _do_cmp. unfold_M. by rewrite Hopen1, Hopen2, _do_cmp_loop_spec.
  - apply bool_decide_eq_true.
  - unfold full_buffer_cmp. unfold_M. by rewrite Hopen1, Hopen2.
Qed.

(** [p] holds "hi" and [q] holds "ho": the comparator answers [False]. *)
Lemma do_cmp_decides_content_equality_witness :
  ∃ outcome : bool,
    _do_cmp sample_fs "p" "q" ∅ = (Return outcome, ∅) ∧
    (outcome = true ↔ ["h"; "i"]%byte = ["h"; "o"]%byte) ∧
    full_buffer_cmp sample_fs "p" "q" ∅ = (Return outcome, ∅).
Proof.
  apply (do_cmp_decides_content_equality sample_fs "p" "q"
           ["h"; "i"]%byte ["h"; "o"]%byte ∅); reflexivity.
Defined.

(** The same on files longer than one chunk that differ in their last byte
    only, and on a file and its proper prefix. *)
Example do_cmp_loop_two_chunks :
  let long := replicate (BUFSIZE + 3) "x"%byte in
  _do_cmp_loop (long ++ ["a"%byte]) (long ++ ["b"%byte]) = false ∧
  _do_cmp_loop (long ++ ["a"%byte]) long = false ∧
  _do_cmp_loop (long ++ ["a"%byte]) (long ++ ["a"%byte]) = true.
Proof. vm_compute. done. Qed.

(** ** The cache *)


(** Reading the files does not touch the cache. *)
Lemma _do_cmp_leaves_cache fs filename_1 filename_2 c :
  (_do_cmp fs filename_1 filename_2 c).2 = c.
Proof.
  unfold _do_cmp. unfold_M.
  destruct (open_rb fs filename_1); [|done].
  by destruct (open_rb fs filename_2).
Qed.

(** A hit returns the stored outcome and changes nothing. *)
Lemma cmp_cached_hit fs k c outcome :
  c !! k = Some outcome → cmp_cached fs k c = (Return outcome, c).
Proof. intros Hk. unfold cmp_cached, cache_get. unfold_M. by rewrite Hk. Qed.

(** A miss on a cache of more than 100 entries empties it; the outcome of
    the comparison, when there is one, is then its only entry. *)
Lemma cmp_cached_miss_full fs k c :
  c !! k = None → (100 < size c)%nat →
  (cmp_cached fs k c).2 = ∅ ∨
  ∃ outcome, (cmp_cached fs k c).2 = {[k := outcome]}.
Proof.
  intros Hk Hfull.
  unfold cmp_cached, cache_get, cache_len, clear_cache, cache_setitem.
  unfold_M. rewrite Hk.
  destruct (Z.ltb_spec 100 (Z.of_nat (size c))) as [_|?]; [|lia].
  pose proof (_do_cmp_leaves_cache fs k.1 k.2 ∅) as Hc.
  destruct (_do_cmp fs k.1 k.2 ∅) as [[outcome|e] c']; cbn in Hc; subst c'; cbn.
  - right. exists outcome. apply insert_empty.
  - by left.
Qed.

(** A miss on a cache of at most 100 entries adds one entry, or none when
    the comparison raises. *)
Lemma cmp_cached_miss_room fs k c :
  c !! k = None → (size c ≤ 100)%nat →
  (cmp_cached fs k c).2 = c ∨
  ∃ outcome, (cmp_cached fs k c).2 = <[k := outcome]> c.
Proof.
  intros Hk Hroom.
  unfold cmp_cached, cache_get, cache_len, clear_cache, cache_setitem.
  unfold_M. rewrite Hk.
  destruct (Z.ltb_spec 100 (Z.of_nat (size c))) as [?|_]; [lia|].
  pose proof (_do_cmp_leaves_cache fs k.1 k.2 c) as Hc.
  destruct (_do_cmp fs k.1 k.2 c) as [[outcome|e] c']; cbn in Hc; subst c'; cbn.
  - right. by exists outcome.
  - by left.
Qed.

Lemma cmp_cached_size fs k c :
  (size c ≤ 101)%nat → (size (cmp_cached fs k c).2 ≤ 101)%nat.
Proof.
  intros Hsize. destruct (c !! k) as [outcome|] eqn:Hk.
  { by rewrite (cmp_cached_hit fs k c outcome). }
  destruct (decide (100 < size c)%nat) as [Hfull|Hroom].
  - destruct (cmp_cached_miss_full fs k c Hk Hfull) as [->|[outcome ->]].
    + rewrite map_size_empty. lia.
    + rewrite map_size_singleton. lia.
  - destruct (cmp_cached_miss_room fs k c Hk) as [->|[outcome ->]]; [lia|done|].
    rewrite map_size_insert_None by done. lia.
Qed.

Lemma run_cached_size calls c :
  (size c ≤ 101)%nat → (size (run_cached calls c) ≤ 101)%nat.
Proof.
  revert c. induction calls as [|[fs k] calls IH]; intros c Hsize; [done|].
  cbn. apply IH. by apply cmp_cached_size.
Qed.




(** ** cmpfiles *)

(** [_cmp] turns [OSError] into 2 and [False] into 1; the [NameError] of
    [cmp] is no [OSError] and passes through. *)
Lemma _cmp_outcomes fs a b shallow c :
  _cmp fs a b shallow c = (Return 2, c) ∨
  _cmp fs a b shallow c = (Return 1, c) ∨
  _cmp fs a b shallow c = (Raise NameError, c).
Proof.
  unfold _cmp, except_OSError. unfold_M.
  destruct (cmp_outcomes fs a b shallow c) as [->|[->| ->]]; auto.
Qed.

(** A name whose file cannot be stat'd is given index 2 by [_cmp]. *)
Lemma _cmp_stat_error fs a b shallow c :
  stat fs a = Raise OSError ∨ stat fs b = Raise OSError →
  _cmp fs a b shallow c = (Return 2, c).
Proof.
  intros Hstat. unfold _cmp, except_OSError. unfold_M.
  assert (cmp fs a b shallow c = (Raise OSError, c)) as ->; [|done].
  destruct Hstat as [Ha|Hb]; [by apply cmp_stat_0_fails|].
  destruct (stat_cases fs a) as [Ha|[st_a Ha]].
  - by apply cmp_stat_0_fails.
  - by eapply cmp_stat_1_fails.
Qed.

(** No pass of the loop body gets to its [yield]. *)
Lemma cmpfiles_body_raises `{OsPath} fs a b shallow x c :
  cmpfiles_body fs a b shallow x c = (Raise TypeError, c) ∨
  cmpfiles_body fs a b shallow x c = (Raise NameError, c).
Proof.
  unfold cmpfiles_body, tuple_setitem. unfold_M.
  destruct (_cmp_outcomes fs (join a x) (join b x) shallow c)
    as [->|[->| ->]]; auto.
Qed.

(** C5: [cmpfiles] puts no name in any bucket.  On a list of names that is
    not empty the generator yields nothing and ends with an exception on the
    first name: [TypeError] from the item assignment to the tuple [result]
    when [_cmp] returned an index, the index 2 of a filesystem error
    included, or the [NameError] of [cmp].  The names after the first are
    never compared. *)
Theorem cmpfiles_raises_on_first_name `{OsPath} fs a b x common shallow c :
  ∃ e, cmpfiles fs a b (x :: common) shallow c = (([], Some e), c) ∧
       (e = TypeError ∨ e = NameError).
Proof.
  cbn [cmpfiles].
  destruct (cmpfiles_body_raises fs a b shallow x c) as [-> | ->]; eauto.
Qed.

(** The file of the first name is missing on both sides; the second name is
    a directory on both sides. *)
Example cmpfiles_missing_file :
  cmpfiles (H:=posixpath) sample_fs "a" "b" ["gone"; "a"] true ∅
  = (([], Some TypeError), ∅).
Proof. reflexivity. Qed.

(** ** The directory partitioner *)

Lemma tuple_in_false (b a : string * string) : tuple_in b a = false.
Proof. reflexivity. Qed.

Lemma common_names_take `{OsPath} (l r : list string) :
  common_names l r = normcase <$> take (length r) l.
Proof.
  revert r. induction l as [|x l IH]; intros [|y r]; try done.
  cbn. f_equal. apply IH.
Qed.

(** C9: [common_names] does not select the names present in both listings.
    It pairs the listings position by position and yields the normalized
    form of each left name that has a right name at the same position,
    whatever that right name is; on the listings [a] and [b] it yields
    [a], which the right listing does not hold. *)
Theorem common_names_is_positional :
  (∀ (H : OsPath) (l r : list string),
     common_names l r = normcase <$> take (length r) l) ∧
  common_names (H:=posixpath) ["a"] ["b"] = ["a"] ∧
  common_names (H:=posixpath) ["a"; "b"] ["b"] = ["a"].
Proof.
  split; [|done]. intros H l r. apply common_names_take.
Qed.

(** A loop that ran to its end and whose every pass yields its own item
    has yielded all the items. *)
Lemma for_yield_all {A} (xs : list A) (body : A → result (list A)) :
  (∀ x ys, body x = Return ys → ys = [x]) →
  (for_yield xs body).2 = None → (for_yield xs body).1 = xs.
Proof.
  intros Hbody. induction xs as [|x xs IH]; [done|]. cbn.
  destruct (body x) as [ys|e] eqn:Hx; [|done].
  rewrite (Hbody x ys Hx).
  destruct (for_yield xs body) as [zs e]. cbn in *.
  intros ->. by rewrite IH.
Qed.

(** A loop whose passes yield their own item or nothing yields items of
    the list it runs over. *)
Lemma for_yield_sub {A} (xs : list A) (body : A → result (list A)) y :
  (∀ x ys, body x = Return ys → ys = [x] ∨ ys = []) →
  y ∈ (for_yield xs body).1 → y ∈ xs.
Proof.
  intros Hbody. induction xs as [|x xs IH]; [done|]. cbn.
  destruct (body x) as [ys|e] eqn:Hx; [|by intros ?%elem_of_nil].
  destruct (for_yield xs body) as [zs e]. cbn in *.
  intros [Hy|Hy]%elem_of_app.
  - destruct (Hbody x ys Hx); subst.
    + apply list_elem_of_singleton in Hy as ->. left.
    + by apply elem_of_nil in Hy.
  - right. by apply IH.
Qed.

Lemma S_ISREG_not_S_ISDIR mode : S_ISREG mode = true → S_ISDIR mode = false.
Proof.
  unfold S_ISREG, S_ISDIR. intros ->%Z.eqb_eq. reflexivity.
Qed.

(** The three tests of [common_funny] leave no name out: after equal kinds
    the second test takes what is not a regular file and the third takes
    the regular files, which are no directories. *)
Lemma common_funny_all `{OsPath} fs left right :
  (common_funny fs left right).2 = None →
  (common_funny fs left right).1
  = common_names (iter_str left) (iter_str right).
Proof.
  apply for_yield_all. intros name ys.
  unfold mbind, result_bind, mret, result_ret.
  destruct (stat fs (join left name)) as [st_a|]; [|done].
  destruct (stat fs (join right name)) as [st_b|]; [|done].
  intros [= <-].
  destruct (negb _); [done|].
  destruct (S_ISREG (S_IFMT (st_mode st_a))) eqn:Hreg; [|done].
  by rewrite (S_ISREG_not_S_ISDIR _ Hreg).
Qed.

Lemma common_dirs_sub `{OsPath} fs left right name :
  name ∈ (common_dirs fs left right).1 →
  name ∈ common_names (iter_str left) (iter_str right).
Proof.
  apply for_yield_sub. intros x ys.
  unfold mbind, result_bind, mret, result_ret.
  destruct (stat fs (join left x)) as [st|]; [|done].
  intros [= <-]. destruct (S_ISDIR _); auto.
Qed.

Lemma common_files_sub `{OsPath} fs left right name :
  name ∈ (common_files fs left right).1 →
  name ∈ common_names (iter_str left) (iter_str right).
Proof.
  apply for_yield_sub. intros x ys.
  unfold mbind, result_bind, mret, result_ret.
  destruct (stat fs (join left x)) as [st|]; [|done].
  intros [= <-]. destruct (S_ISREG _); auto.
Qed.

(** C4: the three common sets are no partition.  Whenever [common_funny]
    runs to its end, every name that [common_dirs] or [common_files] yields
    is yielded by [common_funny] as well: a name that is a directory on both
    sides, or a regular file on both sides, is in two sets. *)
Theorem common_dirs_and_files_are_funny `{OsPath} fs left right name :
  (common_funny fs left right).2 = None →
  name ∈ (common_dirs fs left right).1 ∨ name ∈ (common_files fs left right).1 →
  name ∈ (common_funny fs left right).1.
Proof.
  intros Hend Hin. rewrite (common_funny_all _ _ _ Hend).
  destruct Hin; [by eapply common_dirs_sub | by eapply common_files_sub].
Qed.

(** [a/a] and [b/a] are both directories: [a] is a common directory and a
    funny name at once. *)
Lemma common_dirs_and_files_are_funny_witness :
  "a" ∈ (common_dirs (H:=posixpath) sample_fs "a" "b").1 ∧
  "a" ∈ (common_funny (H:=posixpath) sample_fs "a" "b").1.
Proof.
  assert ("a" ∈ (common_dirs (H:=posixpath) sample_fs "a" "b").1) as Hdir.
  { vm_compute. left. }
  split; [exact Hdir|].
  apply (common_dirs_and_files_are_funny (H:=posixpath) sample_fs "a" "b" "a");
    [reflexivity | left; exact Hdir].
Defined.

(** [common_dirs] stats the left side only: a directory on the left that
    is a regular file on the right is a common directory, and funny. *)
Example common_dirs_left_side_only :
  common_dirs (H:=posixpath) mixed_fs "a" "b" = (["a"], None) ∧
  common_funny (H:=posixpath) mixed_fs "a" "b" = (["a"], None).
Proof. done. Qed.

Example common_sets_overlap :
  common_dirs (H:=posixpath) sample_fs "a" "b" = (["a"], None) ∧
  common_files (H:=posixpath) sample_fs "a" "b" = ([], None) ∧
  common_funny (H:=posixpath) sample_fs "a" "b" = (["a"], None).
Proof. done. Qed.

(** * Further properties of the code *)

(** ** cmp *)

(** X1: whatever the paths, the flag and the file system, [cmp] does not
    return [True] and leaves the cache as it found it. *)
Theorem cmp_never_true_never_caches fs f0 f1 shallow c :
  (cmp fs f0 f1 shallow c).1 ≠ Return true ∧ (cmp fs f0 f1 shallow c).2 = c.
Proof.
  by destruct (cmp_outcomes fs f0 f1 shallow c) as [->|[->| ->]].
Qed.

(** X2: the [shallow] flag has no effect: the test that reads it comes
    after the point where [cmp] returns or raises. *)
Theorem cmp_ignores_shallow fs f0 f1 c :
  cmp fs f0 f1 true c = cmp fs f0 f1 false c.
Proof.
  destruct (stat_cases fs f0) as [H0|[st_0 H0]].
  { by rewrite !cmp_stat_0_fails. }
  destruct (stat_cases fs f1) as [H1|[st_1 H1]].
  { by rewrite !(cmp_stat_1_fails _ _ _ _ _ st_0). }
  destruct (decide (S_IFMT (st_mode st_0) = S_IFREG)).
  - by rewrite !(cmp_first_regular _ _ _ _ _ st_0 st_1).
  - by rewrite !(cmp_first_not_regular _ _ _ _ _ st_0 st_1).
Qed.

(** X3: when both paths can be stat'd and the first is not a regular file,
    [cmp] returns [False], whatever the second path is. *)
Theorem cmp_first_not_regular_false fs f0 f1 shallow c st_0 st_1 :
  stat fs f0 = Return st_0 → stat fs f1 = Return st_1 →
  S_IFMT (st_mode st_0) ≠ S_IFREG →
  cmp fs f0 f1 shallow c = (Return false, c).
Proof. apply cmp_first_not_regular. Qed.

(** A directory against itself, and against a regular file. *)
Lemma cmp_first_not_regular_false_witness :
  cmp sample_fs "a" "a" true ∅ = (Return false, ∅) ∧
  cmp sample_fs "a" "p" false ∅ = (Return false, ∅).
Proof.
  split.
  - apply (cmp_first_not_regular_false sample_fs "a" "a" true ∅
             (i_stat directory) (i_stat directory));
      [reflexivity | reflexivity | discriminate].
  - apply (cmp_first_not_regular_false sample_fs "a" "p" false ∅
             (i_stat directory) (i_stat (regular ["h"; "i"]%byte 5)));
      [reflexivity | reflexivity | discriminate].
Defined.

(** ** _cmp *)

(** X4: [_cmp] never answers 0, the index of the equal files, and leaves the
    cache as it found it. *)
Theorem _cmp_never_equal fs a b shallow c :
  (_cmp fs a b shallow c).1 ≠ Return 0 ∧ (_cmp fs a b shallow c).2 = c.
Proof.
  by destruct (_cmp_outcomes fs a b shallow c) as [->|[->| ->]].
Qed.

(** X5: a first path that is not a regular file is answered 1, different. *)
Theorem _cmp_first_not_regular fs a b shallow c st_a st_b :
  stat fs a = Return st_a → stat fs b = Return st_b →
  S_IFMT (st_mode st_a) ≠ S_IFREG →
  _cmp fs a b shallow c = (Return 1, c).
Proof.
  intros Ha Hb Hkind. unfold _cmp, except_OSError. unfold_M.
  by rewrite (cmp_first_not_regular _ _ _ _ _ st_a st_b).
Qed.

Lemma _cmp_first_not_regular_witness :
  _cmp sample_fs "a/a" "b/a" true ∅ = (Return 1, ∅).
Proof.
  apply (_cmp_first_not_regular sample_fs "a/a" "b/a" true ∅
           (i_stat directory) (i_stat directory));
    [reflexivity | reflexivity | discriminate].
Defined.

(** X6: the handler of [_cmp] catches [OSError] only: with a regular first
    path and a second path that can be stat'd, the [NameError] of [cmp]
    reaches the caller of [_cmp]. *)
Theorem _cmp_lets_NameError_through fs a b shallow c st_a st_b :
  stat fs a = Return st_a → stat fs b = Return st_b →
  S_IFMT (st_mode st_a) = S_IFREG →
  _cmp fs a b shallow c = (Raise NameError, c).
Proof.
  intros Ha Hb Hkind. unfold _cmp, except_OSError. unfold_M.
  by rewrite (cmp_first_regular _ _ _ _ _ st_a st_b).
Qed.

Lemma _cmp_lets_NameError_through_witness :
  _cmp sample_fs "p" "r" false ∅ = (Raise NameError, ∅).
Proof.
  apply (_cmp_lets_NameError_through sample_fs "p" "r" false ∅
           (i_stat (regular ["h"; "i"]%byte 5))
           (i_stat (regular ["h"; "i"]%byte 7))); reflexivity.
Defined.

(** X7: when [stat] fails on either path, [_cmp] answers 2 and raises
    nothing: the [OSError] of [cmp] stops here. *)
Theorem _cmp_recovers_stat_error fs a b shallow c :
  stat fs a = Raise OSError ∨ stat fs b = Raise OSError →
  _cmp fs a b shallow c = (Return 2, c).
Proof. apply _cmp_stat_error. Qed.

(** A missing first path, and a missing second path after a regular first. *)
Lemma _cmp_recovers_stat_error_witness :
  _cmp sample_fs "a/gone" "b/a" true ∅ = (Return 2, ∅) ∧
  _cmp sample_fs "p" "gone" true ∅ = (Return 2, ∅).
Proof.
  split.
  - apply (_cmp_recovers_stat_error sample_fs "a/gone" "b/a" true ∅).
    left. reflexivity.
  - apply (_cmp_recovers_stat_error sample_fs "p" "gone" true ∅).
    right. reflexivity.
Defined.

(** ** _do_cmp *)

Lemma open_rb_cases fs path :
  open_rb fs path = Raise OSError ∨ ∃ data, open_rb fs path = Return data.
Proof.
  unfold open_rb. destruct (fs !! path) as [[st [data|]]|]; eauto.
Qed.

Lemma _do_cmp_open_fails fs filename_1 filename_2 c :
  open_rb fs filename_1 = Raise OSError ∨ open_rb fs filename_2 = Raise OSError →
  _do_cmp fs filename_1 filename_2 c = (Raise OSError, c).
Proof.
  intros Hopen. unfold _do_cmp. unfold_M.
  destruct (open_rb_cases fs filename_1) as [H1 | [fp1 H1]];
    rewrite H1 in *; [done|].
  destruct Hopen as [Hopen|Hopen]; [discriminate|]. by rewrite Hopen.
Qed.

(** X8: when either file cannot be opened, [_do_cmp] raises [OSError] and
    compares nothing. *)
Theorem _do_cmp_open_error fs filename_1 filename_2 c :
  open_rb fs filename_1 = Raise OSError ∨ open_rb fs filename_2 = Raise OSError →
  _do_cmp fs filename_1 filename_2 c = (Raise OSError, c).
Proof. apply _do_cmp_open_fails. Qed.

(** A directory cannot be opened for reading. *)
Lemma _do_cmp_open_error_witness :
  _do_cmp sample_fs "p" "a" ∅ = (Raise OSError, ∅).
Proof.
  apply (_do_cmp_open_error sample_fs "p" "a" ∅). right. reflexivity.
Defined.

(** X9: the order of the two files does not matter to [_do_cmp], for the
    answer and for the failure alike. *)
Theorem _do_cmp_symmetric fs filename_1 filename_2 c :
  _do_cmp fs filename_1 filename_2 c = _do_cmp fs filename_2 filename_1 c.
Proof.
  unfold _do_cmp. unfold_M.
  destruct (open_rb_cases fs filename_1) as [-> | [fp1 ->]];
    destruct (open_rb_cases fs filename_2) as [-> | [fp2 ->]]; try done.
  rewrite !_do_cmp_loop_spec. do 2 f_equal. by apply bool_decide_ext.
Qed.

(** X10: a file that opens compares equal to itself. *)
Theorem _do_cmp_reflexive fs filename data c :
  open_rb fs filename = Return data →
  _do_cmp fs filename filename c = (Return true, c).
Proof.
  intros Hopen. unfold _do_cmp. unfold_M.
  rewrite Hopen, _do_cmp_loop_spec. by rewrite bool_decide_eq_true_2.
Qed.

Lemma _do_cmp_reflexive_witness :
  _do_cmp sample_fs "q" "q" ∅ = (Return true, ∅).
Proof.
  apply (_do_cmp_reflexive sample_fs "q" ["h"; "o"]%byte ∅). reflexivity.
Defined.

(** X11: answers of [True] chain: a first file equal to a second and the
    second equal to a third make the first equal to the third. *)
Theorem _do_cmp_transitive fs f1 f2 f3 c :
  _do_cmp fs f1 f2 c = (Return true, c) →
  _do_cmp fs f2 f3 c = (Return true, c) →
  _do_cmp fs f1 f3 c = (Return true, c).
Proof.
  unfold _do_cmp. unfold_M.
  destruct (open_rb_cases fs f1) as [-> | [fp1 ->]]; [done|].
  destruct (open_rb_cases fs f2) as [-> | [fp2 ->]]; [done|].
  destruct (open_rb_cases fs f3) as [-> | [fp3 ->]]; [done|].
  rewrite !_do_cmp_loop_spec. intros [= H12] [= H23].
  apply bool_decide_eq_true in H12, H23. subst.
  by rewrite bool_decide_eq_true_2.
Qed.

(** [p] and [r] hold the same bytes under different times. *)
Lemma _do_cmp_transitive_witness :
  _do_cmp sample_fs "p" "p" ∅ = (Return true, ∅).
Proof.
  apply (_do_cmp_transitive sample_fs "p" "r" "p" ∅); reflexivity.
Defined.

(** ** The cache block of cmp, lines 62 to 68 *)

(** A lookup that returns leaves its answer in the cache under its key. *)
Lemma cmp_cached_stores fs k c outcome c' :
  cmp_cached fs k c = (Return outcome, c') → c' !! k = Some outcome.
Proof.
  destruct (c !! k) as [stored|] eqn:Hk.
  { rewrite (cmp_cached_hit fs k c stored Hk). by intros [= <- <-]. }
  unfold cmp_cached, cache_get, cache_len, clear_cache, cache_setitem.
  unfold_M. rewrite Hk.
  destruct (100 <? Z.of_nat (size c)).
  - pose proof (_do_cmp_leaves_cache fs k.1 k.2 ∅) as Hc.
    destruct (_do_cmp fs k.1 k.2 ∅) as [[o|e] c1]; cbn in Hc; subst c1;
      intros [= <- <-]. apply lookup_insert_eq.
  - pose proof (_do_cmp_leaves_cache fs k.1 k.2 c) as Hc.
    destruct (_do_cmp fs k.1 k.2 c) as [[o|e] c1]; cbn in Hc; subst c1;
      intros [= <- <-]. apply lookup_insert_eq.
Qed.

(** With at most 100 entries, a lookup adds at most one entry and keeps
    every entry it finds. *)
Lemma cmp_cached_size_step (fs : filesystem) (k : string * string)
    (c : cache) :
  (size c ≤ 100)%nat → (size (cmp_cached fs k c).2 ≤ S (size c))%nat.
Proof.
  intros Hroom. destruct (c !! k) as [stored|] eqn:Hk.
  { rewrite (cmp_cached_hit fs k c stored Hk). cbn. lia. }
  destruct (cmp_cached_miss_room fs k c Hk Hroom) as [-> | [outcome ->]];
    [lia|]. by rewrite map_size_insert_None.
Qed.

Lemma cmp_cached_keeps_entry (fs : filesystem) (k k0 : string * string)
    (c : cache) (stored : bool) :
  (size c ≤ 100)%nat → c !! k0 = Some stored →
  (cmp_cached fs k c).2 !! k0 = Some stored.
Proof.
  intros Hroom Hk0. destruct (c !! k) as [o|] eqn:Hk.
  { by rewrite (cmp_cached_hit fs k c o Hk). }
  destruct (cmp_cached_miss_room fs k c Hk Hroom) as [-> | [outcome ->]];
    [done|]. rewrite lookup_insert_ne; [done|]. congruence.
Qed.

(** Lookups that cannot bring the cache above 101 entries clear nothing. *)
Lemma run_cached_keeps_entry
    (calls : list (filesystem * (string * string))) (c : cache)
    (k0 : string * string) (stored : bool) :
  (size c + length calls ≤ 101)%nat → c !! k0 = Some stored →
  run_cached calls c !! k0 = Some stored.
Proof.
  revert c. induction calls as [|[fs k] calls IH]; intros c Hsize Hk0; [done|].
  cbn in *. apply IH.
  - pose proof (cmp_cached_size_step fs k c). lia.
  - apply cmp_cached_keeps_entry; [lia|done].
Qed.

(** X12: the block keeps no signature with an entry and checks none.  Once
    a lookup has returned, then after any later lookups, of any pairs and on
    any states of the file system, that cannot have brought the cache above
    101 entries (the entries left by the first lookup and the later lookups
    number 101 at most, so that line 66 has cleared nothing), the same pair
    gets the same answer from the cache, with the cache unchanged, whatever
    the files hold by then. *)
Theorem cmp_cached_answer_sticks (fs fs' : filesystem)
    (k : string * string) (c c' : cache) (outcome : bool)
    (calls : list (filesystem * (string * string))) :
  cmp_cached fs k c = (Return outcome, c') →
  (size c' + length calls ≤ 101)%nat →
  cmp_cached fs' k (run_cached calls c')
  = (Return outcome, run_cached calls c').
Proof.
  intros Hfirst Hsize. apply cmp_cached_hit.
  apply run_cached_keeps_entry; [done|]. by eapply cmp_cached_stores.
Qed.

(** [p] and [q] differ; then [q] is rewritten to the bytes of [p], with a
    new time, and two other pairs are looked up: the stored [False] is
    still the answer for [p] and [q], where the bytes now say [True]. *)
Lemma cmp_cached_answer_sticks_witness :
  let later := [(sample_fs_later, ("p", "r")); (sample_fs_later, ("q", "p"))] in
  let c' := run_cached later {[("p", "q") := false]} in
  cmp_cached sample_fs_later ("p", "q") c' = (Return false, c') ∧
  c' !! ("q", "p") = Some true ∧
  _do_cmp sample_fs_later "p" "q" ∅ = (Return true, ∅).
Proof.
  split; [|split; reflexivity].
  apply (cmp_cached_answer_sticks sample_fs sample_fs_later ("p", "q") ∅
           {[("p", "q") := false]} false
           [(sample_fs_later, ("p", "r")); (sample_fs_later, ("q", "p"))]);
    [reflexivity | vm_compute; lia].
Defined.

(** X13: on a cache of at most 100 entries, a lookup changes no entry but
    that of its own pair; the pair in the other order is another key. *)
Theorem cmp_cached_keeps_other_entries (fs : filesystem)
    (k k' : string * string) (c : cache) :
  (size c ≤ 100)%nat → k' ≠ k →
  (cmp_cached fs k c).2 !! k' = c !! k'.
Proof.
  intros Hroom Hne. destruct (c !! k) as [stored|] eqn:Hk.
  { by rewrite (cmp_cached_hit fs k c stored Hk). }
  destruct (cmp_cached_miss_room fs k c Hk Hroom) as [-> | [outcome ->]];
    [done|]. by apply lookup_insert_ne.
Qed.

Lemma cmp_cached_keeps_other_entries_witness :
  (cmp_cached sample_fs ("q", "p") {[("p", "q") := false]}).2 !! ("p", "q")
  = Some false.
Proof.
  rewrite (cmp_cached_keeps_other_entries sample_fs ("q", "p") ("p", "q")
             {[("p", "q") := false]}); [reflexivity | vm_compute; lia | done].
Defined.

(** X14: on a miss, a file that cannot be opened makes the block raise
    [OSError] and store nothing; the size test has come first, so a cache
    of more than 100 entries is emptied all the same. *)
Theorem cmp_cached_open_error (fs : filesystem) (k : string * string)
    (c : cache) :
  c !! k = None →
  open_rb fs k.1 = Raise OSError ∨ open_rb fs k.2 = Raise OSError →
  cmp_cached fs k c
  = (Raise OSError, if bool_decide (100 < size c)%nat then ∅ else c).
Proof.
  intros Hk Hopen.
  unfold cmp_cached, cache_get, cache_len, clear_cache, cache_setitem.
  unfold_M. rewrite Hk.
  destruct (Z.ltb_spec 100 (Z.of_nat (size c))) as [Hfull|Hroom].
  - rewrite bool_decide_eq_true_2 by lia.
    by rewrite (_do_cmp_open_fails fs k.1 k.2 ∅ Hopen).
  - rewrite bool_decide_eq_false_2 by lia.
    by rewrite (_do_cmp_open_fails fs k.1 k.2 c Hopen).
Qed.

(** The cache of the 101 pairs is lost to a lookup of a missing file. *)
Lemma cmp_cached_open_error_witness :
  cmp_cached empty_files ("gone", "g")
    (run_cached ((λ k, (empty_files, k)) <$> distinct_pairs) ∅)
  = (Raise OSError, ∅).
Proof.
  pose proof (cmp_cached_open_error empty_files ("gone", "g")
    (run_cached ((λ k, (empty_files, k)) <$> distinct_pairs) ∅)) as H.
  rewrite H; [by vm_compute | by vm_compute | left; by vm_compute].
Defined.

(** ** The signature *)

(** X15: a change of the low twelve bits of [st_mode], where the permission
    bits are, leaves the signature as it was. *)
Theorem metadata_ignores_permission_bits (s1 s2 : stat_result) perm :
  0 ≤ perm < 0x1000 →
  st_mode s2 = Z.lor (Z.land (st_mode s1) 0xF000) perm →
  st_size s2 = st_size s1 →
  st_mtime s2 = st_mtime s1 →
  _metadata s2 = _metadata s1.
Proof.
  intros Hperm Hmode Hsize Hmtime. unfold _metadata.
  by rewrite Hmode, S_IFMT_permission_bits, Hsize, Hmtime.
Qed.

(** From mode 0o100644 to mode 0o104600. *)
Lemma metadata_ignores_permission_bits_witness :
  _metadata (mk_stat 0x8980 7 2 5) = _metadata (mk_stat 0x81A4 0 2 5).
Proof.
  apply (metadata_ignores_permission_bits
           (mk_stat 0x81A4 0 2 5) (mk_stat 0x8980 7 2 5) 0x980);
    [lia | reflexivity | reflexivity | reflexivity].
Defined.

(** X16: of the file system, [cmp] reads the signatures of its two paths
    and, at most, their bytes: on two file systems that agree on these for
    the two paths it does the same, whatever else differs. *)
Theorem cmp_depends_on_signatures_and_bytes fs fs' f0 f1 shallow c :
  (∀ f, f ∈ [f0; f1] →
     (st ← stat fs f; mret (_metadata st))
     = (st ← stat fs' f; mret (_metadata st))) →
  (∀ f, f ∈ [f0; f1] → open_rb fs f = open_rb fs' f) →
  cmp fs f0 f1 shallow c = cmp fs' f0 f1 shallow c.
Proof.
  intros Hsig Hopen.
  pose proof (Hsig f0 ltac:(set_solver)) as H0.
  pose proof (Hsig f1 ltac:(set_solver)) as H1.
  pose proof (Hopen f0 ltac:(set_solver)) as Hopen0.
  pose proof (Hopen f1 ltac:(set_solver)) as Hopen1.
  assert (cmp_cached fs (f0, f1) c = cmp_cached fs' (f0, f1) c) as Hcached.
  { unfold cmp_cached, _do_cmp. unfold_M. cbn.
    by rewrite Hopen0, Hopen1. }
  unfold cmp. unfold_M.
  unfold mbind, result_bind, mret, result_ret in H0, H1.
  destruct (stat fs f0) as [s0|e0], (stat fs' f0) as [s0'|e0'];
    try discriminate; [|by injection H0 as ->].
  destruct (stat fs f1) as [s1|e1], (stat fs' f1) as [s1'|e1'];
    try discriminate; [|by injection H1 as ->].
  assert (_metadata s0 = _metadata s0') as -> by congruence.
  assert (_metadata s1 = _metadata s1') as -> by congruence.
  by repeat case_match.
Qed.

Lemma cmp_depends_on_signatures_and_bytes_witness :
  cmp sample_fs "a" "p" true ∅ = cmp sample_fs_private "a" "p" true ∅.
Proof.
  apply (cmp_depends_on_signatures_and_bytes
           sample_fs sample_fs_private "a" "p" true ∅).
  - intros f Hf. apply list_elem_of_In in Hf.
    destruct Hf as [<-|[<-|[]]]; reflexivity.
  - intros f Hf. apply list_elem_of_In in Hf.
    destruct Hf as [<-|[<-|[]]]; reflexivity.
Defined.

(** ** The directory partitioner *)

(** What a loop yields, a pass of its body has yielded. *)
Lemma for_yield_elem {A B} (xs : list A) (body : A → result (list B)) y :
  y ∈ (for_yield xs body).1 →
  ∃ x ys, x ∈ xs ∧ body x = Return ys ∧ y ∈ ys.
Proof.
  induction xs as [|x xs IH]; cbn; [by intros ?%elem_of_nil|].
  destruct (body x) as [ys|e] eqn:Hx; [|by intros ?%elem_of_nil].
  destruct (for_yield xs body) as [zs e]. cbn in *.
  intros [Hy|Hy]%elem_of_app.
  - exists x, ys. split; [left|done].
  - destruct (IH Hy) as (x' & ys' & Hin & Hbody & Hy').
    exists x', ys'. split; [by right|done].
Qed.

(** A loop runs to its end exactly when no pass of its body raises. *)
Lemma for_yield_ends {A B} (xs : list A) (body : A → result (list B)) :
  (for_yield xs body).2 = None ↔ ∀ x, x ∈ xs → ∃ ys, body x = Return ys.
Proof.
  induction xs as [|x xs IH]; cbn.
  { split; [by intros _ x ?%elem_of_nil|done]. }
  destruct (body x) as [ys|e] eqn:Hx.
  - destruct (for_yield xs body) as [zs e]. cbn in *. rewrite IH.
    split.
    + intros Hall x' [->|Hin]%elem_of_cons; eauto.
    + intros Hall x' Hin. apply Hall. by right.
  - split; [done|]. intros Hall.
    destruct (Hall x) as [ys Hys]; [left|congruence].
Qed.

(** The exception that ends a loop is that of a pass of its body. *)
Lemma for_yield_exn {A B} (xs : list A) (body : A → result (list B)) e :
  (for_yield xs body).2 = Some e → ∃ x, x ∈ xs ∧ body x = Raise e.
Proof.
  induction xs as [|x xs IH]; cbn; [done|].
  destruct (body x) as [ys|e'] eqn:Hx.
  - destruct (for_yield xs body) as [zs e']. cbn in *.
    intros He. destruct (IH He) as (x' & Hin & Hbody).
    exists x'. split; [by right|done].
  - intros [= ->]. exists x. split; [left|done].
Qed.

Lemma S_ISDIR_S_IFMT mode : S_ISDIR (S_IFMT mode) = S_ISDIR mode.
Proof.
  unfold S_ISDIR, S_IFMT. by rewrite <- Z.land_assoc, Z.land_diag.
Qed.

Lemma S_ISREG_S_IFMT mode : S_ISREG (S_IFMT mode) = S_ISREG mode.
Proof.
  unfold S_ISREG, S_IFMT. by rewrite <- Z.land_assoc, Z.land_diag.
Qed.

Lemma common_dirs_elem `{OsPath} fs left right name :
  name ∈ (common_dirs fs left right).1 →
  ∃ st, stat fs (join left name) = Return st ∧ S_ISDIR (st_mode st) = true.
Proof.
  intros (x & ys & _ & Hbody & Hin)%for_yield_elem.
  unfold mbind, result_bind, mret, result_ret in Hbody.
  destruct (stat fs (join left x)) as [st|] eqn:Hst; [|done].
  injection Hbody as <-.
  destruct (S_ISDIR (S_IFMT (st_mode st))) eqn:Hdir;
    [|by apply elem_of_nil in Hin].
  apply list_elem_of_singleton in Hin as ->.
  exists st. by rewrite <- S_ISDIR_S_IFMT.
Qed.

Lemma common_files_elem `{OsPath} fs left right name :
  name ∈ (common_files fs left right).1 →
  ∃ st, stat fs (join left name) = Return st ∧ S_ISREG (st_mode st) = true.
Proof.
  intros (x & ys & _ & Hbody & Hin)%for_yield_elem.
  unfold mbind, result_bind, mret, result_ret in Hbody.
  destruct (stat fs (join left x)) as [st|] eqn:Hst; [|done].
  injection Hbody as <-.
  destruct (S_ISREG (S_IFMT (st_mode st))) eqn:Hreg;
    [|by apply elem_of_nil in Hin].
  apply list_elem_of_singleton in Hin as ->.
  exists st. by rewrite <- S_ISREG_S_IFMT.
Qed.

(** A loop does the same with two bodies that agree on its items. *)
Lemma for_yield_ext {A B} (xs : list A) (body body' : A → result (list B)) :
  (∀ x, x ∈ xs → body x = body' x) → for_yield xs body = for_yield xs body'.
Proof.
  induction xs as [|x xs IH]; intros Hbody; [done|]. cbn.
  rewrite <- (Hbody x) by left.
  rewrite IH; [done|]. intros x' Hx'. apply Hbody. by right.
Qed.

(** X17: [common_dirs] and [common_files] look at the left side only.  On
    two file systems where [stat] gives the same for the left path of every
    name, whatever the right paths and all other paths are, they yield the
    same names and end the same way; and what [common_dirs] yields is a
    directory on the left side, what [common_files] yields a regular file
    on the left side. *)
Theorem common_dirs_files_left_kind `{OsPath} fs fs' left right :
  (∀ name, name ∈ common_names (iter_str left) (iter_str right) →
     stat fs (join left name) = stat fs' (join left name)) →
  common_dirs fs left right = common_dirs fs' left right ∧
  common_files fs left right = common_files fs' left right ∧
  (∀ name, name ∈ (common_dirs fs left right).1 →
     ∃ st, stat fs (join left name) = Return st ∧ S_ISDIR (st_mode st) = true) ∧
  (∀ name, name ∈ (common_files fs left right).1 →
     ∃ st, stat fs (join left name) = Return st ∧ S_ISREG (st_mode st) = true).
Proof.
  intros Hleft. split; [|split; [|split]].
  - apply for_yield_ext. intros name Hin. by rewrite (Hleft name Hin).
  - apply for_yield_ext. intros name Hin. by rewrite (Hleft name Hin).
  - intros name. apply common_dirs_elem.
  - intros name. apply common_files_elem.
Qed.

(** [a/a] is a directory in both file systems; [b/a] is a regular file in
    the first and a directory in the second. *)
Lemma common_dirs_files_left_kind_witness :
  common_dirs (H:=posixpath) mixed_fs "a" "b"
  = common_dirs (H:=posixpath) sample_fs "a" "b" ∧
  stat mixed_fs "b/a" ≠ stat sample_fs "b/a" ∧
  ∃ st, stat mixed_fs "a/a" = Return st ∧ S_ISDIR (st_mode st) = true.
Proof.
  pose proof (common_dirs_files_left_kind (H:=posixpath)
                mixed_fs sample_fs "a" "b") as Hleft.
  destruct Hleft as (Hdirs & _ & Hkind & _).
  { intros name Hin. apply list_elem_of_In in Hin. vm_compute in Hin.
    destruct Hin as [<-|[]]. reflexivity. }
  split; [exact Hdirs|]. split; [discriminate|].
  apply (Hkind "a"). vm_compute. left.
Defined.

(** X18: no name is yielded both by [common_dirs] and by [common_files]. *)
Theorem common_dirs_files_disjoint `{OsPath} fs left right name :
  name ∈ (common_dirs fs left right).1 →
  name ∉ (common_files fs left right).1.
Proof.
  intros (st & Hst & Hdir)%common_dirs_elem
         (st' & Hst' & Hreg)%common_files_elem.
  rewrite Hst in Hst'. injection Hst' as <-.
  apply S_ISREG_not_S_ISDIR in Hreg. congruence.
Qed.

Lemma common_dirs_files_disjoint_witness :
  "a" ∉ (common_files (H:=posixpath) sample_fs "a" "b").1.
Proof.
  apply (common_dirs_files_disjoint (H:=posixpath) sample_fs "a" "b" "a").
  vm_compute. left.
Defined.

(** X19: [common_dirs] recovers from no error.  It runs to its end exactly
    when every name it is given can be stat'd on the left side; and the
    exception it ends with, when it does not, is the one that [stat] raised
    for the left path of one of the names. *)
Theorem common_dirs_stat_error `{OsPath} fs left right :
  ((common_dirs fs left right).2 = None ↔
   ∀ name, name ∈ common_names (iter_str left) (iter_str right) →
     ∃ st, stat fs (join left name) = Return st) ∧
  (∀ e, (common_dirs fs left right).2 = Some e →
     ∃ name, name ∈ common_names (iter_str left) (iter_str right) ∧
             stat fs (join left name) = Raise e).
Proof.
  split.
  - unfold common_dirs. rewrite for_yield_ends.
    split; intros Hall name Hin.
    + destruct (Hall name Hin) as [ys Hys].
      unfold mbind, result_bind, mret, result_ret in Hys.
      destruct (stat fs (join left name)) as [st|]; [eauto|done].
    + destruct (Hall name Hin) as [st ->]. cbn. eauto.
  - intros e (name & Hin & Hbody)%for_yield_exn.
    unfold mbind, result_bind, mret, result_ret in Hbody.
    destruct (stat fs (join left name)) as [st|e'] eqn:Hst; [done|].
    injection Hbody as <-. eauto.
Qed.

(** In [ab], the name [b] is missing. *)
Lemma common_dirs_stat_error_witness :
  ∃ name, name ∈ common_names (H:=posixpath) (iter_str "ab") (iter_str "xy") ∧
          stat partial_fs (join (OsPath:=posixpath) "ab" name) = Raise OSError.
Proof.
  apply (common_dirs_stat_error (H:=posixpath) partial_fs "ab" "xy").
  reflexivity.
Defined.

(** In [ab], [a] is yielded, then the missing [b] ends the generator. *)
Example common_dirs_partial :
  common_dirs (H:=posixpath) partial_fs "ab" "xy" = (["a"], Some OSError).
Proof. reflexivity. Qed.

(** X20: [common_funny] has two outcomes: it ends with an exception, when
    some name cannot be stat'd on one of the two sides, or it runs to its
    end and has yielded every name it was given, in order. *)
Theorem common_funny_all_or_error `{OsPath} fs left right :
  ((common_funny fs left right).2 = None →
   (common_funny fs left right).1
   = common_names (iter_str left) (iter_str right)) ∧
  ((common_funny fs left right).2 = None ↔
   ∀ name, name ∈ common_names (iter_str left) (iter_str right) →
     (∃ st, stat fs (join left name) = Return st) ∧
     (∃ st, stat fs (join right name) = Return st)).
Proof.
  split; [apply common_funny_all|].
  unfold common_funny. rewrite for_yield_ends.
  split; intros Hall name Hin.
  - destruct (Hall name Hin) as [ys Hys].
    unfold mbind, result_bind, mret, result_ret in Hys.
    destruct (stat fs (join left name)) as [st_a|]; [|done].
    destruct (stat fs (join right name)) as [st_b|]; [|done]. eauto.
  - destruct (Hall name Hin) as [[st_a ->] [st_b ->]]. cbn. eauto.
Qed.

Lemma common_funny_all_or_error_witness :
  (common_funny (H:=posixpath) sample_fs "a" "b").1
  = common_names (H:=posixpath) (iter_str "a") (iter_str "b").
Proof.
  apply (common_funny_all_or_error (H:=posixpath) sample_fs "a" "b").
  reflexivity.
Defined.

(** [c/c] is a regular file and [d/c] is missing: [common_files] yields
    the name, [common_funny] ends with [OSError]. *)
Example common_funny_missing_right :
  common_files (H:=posixpath) files_fs "c" "d" = (["c"], None) ∧
  common_funny (H:=posixpath) files_fs "c" "d" = ([], Some OSError).
Proof. done. Qed.

(** ** left_only and right_only *)

Lemma dict_lookup_elem (d : list (string * string)) k v :
  NoDup d.*1 → (k, v) ∈ d → dict_lookup d k = Some v.
Proof.
  unfold dict_lookup. induction d as [|[k' v'] d IH]; cbn.
  { by intros _ ?%elem_of_nil. }
  intros [Hfresh Hnodup]%NoDup_cons Hin. case_decide as Hk; cbn in *.
  - subst k'. apply elem_of_cons in Hin as [[= ->]|Hin]; [done|].
    destruct Hfresh. apply list_elem_of_fmap. by exists (k, v).
  - apply elem_of_cons in Hin as [[= -> ->]|Hin]; [done|].
    specialize (IH Hnodup Hin).
    destruct (list_find _ d) as [[i kv]|]; [|done].
    cbn in *. done.
Qed.

Lemma _filter_only_loop_dict (a : list (string * string)) b items :
  (∀ kv, kv ∈ items → dict_lookup a kv.1 = Some kv.2) →
  _filter_only_loop (CDict a) b items.*1
  = ((filter (λ kv, py_contains b kv.1 = false) items).*2, None).
Proof.
  induction items as [|[k v] items IH]; intros Hitems; [done|].
  cbn [fmap list_fmap fst _filter_only_loop].
  rewrite filter_cons. cbn [fst].
  rewrite IH by (intros kv Hkv; apply Hitems; by right).
  destruct (py_contains b k) eqn:Hb.
  - by rewrite decide_False.
  - rewrite decide_True by done.
    pose proof (Hitems (k, v) ltac:(left)) as Hlookup. cbn [fst snd] in Hlookup.
    unfold py_getitem. by rewrite Hlookup.
Qed.

(** X21: on a dict [a] (keys normalized names, values the names as
    spelled), [_filter_only] raises nothing and yields, in the order of
    [a], the values of the keys that [b] does not contain; [left_only] and
    [right_only] are this same filter. *)
Theorem only_filters_on_dict (a : list (string * string)) (b : container) :
  NoDup a.*1 →
  let only := ((filter (λ kv, py_contains b kv.1 = false) a).*2, None) in
  _filter_only (CDict a) b = only ∧
  left_only (CDict a) b = only ∧
  right_only (CDict a) b = only.
Proof.
  intros Hnodup only.
  assert (_filter_only (CDict a) b = only) as Hfilter; [|done].
  apply _filter_only_loop_dict. intros [k v] Hkv. by apply dict_lookup_elem.
Qed.

(** [src] is on both sides; the two other left names are left only. *)
Lemma only_filters_on_dict_witness :
  left_only (CDict left_names) (CDict right_names)
  = (["ReadMe"; "Notes"], None) ∧
  right_only (CDict right_names) (CDict left_names)
  = (["License"], None).
Proof.
  split.
  - apply (only_filters_on_dict left_names (CDict right_names)).
    apply (bool_decide_unpack (NoDup left_names.*1)). by vm_compute.
  - apply (only_filters_on_dict right_names (CDict left_names)).
    apply (bool_decide_unpack (NoDup right_names.*1)). by vm_compute.
Defined.

Lemma _filter_only_loop_not_dict a b items :
  (∀ d, a ≠ CDict d) →
  _filter_only_loop a b items
  = ([], if forallb (py_contains b) items then None
         else Some GetitemTypeError).
Proof.
  intros Ha. induction items as [|k items IH]; [done|]. cbn.
  destruct (py_contains b k); [done|].
  destruct a as [s|l|d]; [done|done|]. by destruct (Ha d).
Qed.

(** X22: on a [str] or a list, which cannot be indexed by a name,
    [_filter_only] yields nothing: it ends with [TypeError] at the first
    item that [b] does not contain, and runs to its end only when [b]
    contains every item. *)
Theorem only_filters_need_dict (a b : container) :
  (∀ d, a ≠ CDict d) →
  _filter_only a b
  = ([], if forallb (py_contains b) (py_iter a) then None
         else Some GetitemTypeError).
Proof. intros Ha. by apply _filter_only_loop_not_dict. Qed.

(** The paths [ab] and [b] as the directory functions take them, and two
    listings as lists. *)
Lemma only_filters_need_dict_witness :
  left_only (CStr "ab") (CStr "b") = ([], Some GetitemTypeError) ∧
  left_only (CList ["src"; "Notes"]) (CList ["src"])
  = ([], Some GetitemTypeError) ∧
  left_only (CList ["src"]) (CList ["src"; "Notes"]) = ([], None).
Proof.
  split; [|split].
  - by apply (only_filters_need_dict (CStr "ab") (CStr "b")).
  - by apply (only_filters_need_dict (CList ["src"; "Notes"]) (CList ["src"])).
  - by apply (only_filters_need_dict (CList ["src"]) (CList ["src"; "Notes"])).
Defined.

(** ** The cache block on a file system that does not change *)

Lemma _do_cmp_returns fs filename_1 filename_2 c outcome c' :
  _do_cmp fs filename_1 filename_2 c = (Return outcome, c') →
  c' = c ∧
  ∃ data_1 data_2,
    open_rb fs filename_1 = Return data_1 ∧
    open_rb fs filename_2 = Return data_2 ∧
    outcome = bool_decide (data_1 = data_2).
Proof.
  unfold _do_cmp. unfold_M.
  destruct (open_rb fs filename_1) as [fp1|]; [|done].
  destruct (open_rb fs filename_2) as [fp2|]; [|done].
  rewrite _do_cmp_loop_spec. intros [= <- <-]. eauto 6.
Qed.

Lemma cache_agrees_insert (fs : filesystem) (c : cache) k outcome
    data_1 data_2 :
  cache_agrees fs c →
  open_rb fs k.1 = Return data_1 → open_rb fs k.2 = Return data_2 →
  outcome = bool_decide (data_1 = data_2) →
  cache_agrees fs (<[k := outcome]> c).
Proof.
  intros Hc H1 H2 Ho k' o'. rewrite lookup_insert.
  destruct (decide (k = k')) as [<-|Hk]; [|by apply Hc].
  intros [= <-]. eauto 6.
Qed.

(** A lookup keeps the cache in agreement with the file system it reads,
    and its answer is that of the bytes. *)
Lemma cmp_cached_agrees fs k c :
  cache_agrees fs c →
  cache_agrees fs (cmp_cached fs k c).2 ∧
  ∀ outcome, (cmp_cached fs k c).1 = Return outcome →
    ∃ data_1 data_2,
      open_rb fs k.1 = Return data_1 ∧ open_rb fs k.2 = Return data_2 ∧
      outcome = bool_decide (data_1 = data_2).
Proof.
  intros Hc. destruct (c !! k) as [stored|] eqn:Hk.
  { rewrite (cmp_cached_hit fs k c stored Hk). cbn.
    split; [done|]. intros o [= <-]. by apply Hc. }
  assert (cache_agrees fs ∅) as Hempty.
  { intros k' o'. by rewrite lookup_empty. }
  unfold cmp_cached, cache_get, cache_len, clear_cache, cache_setitem.
  unfold_M. rewrite Hk.
  destruct (100 <? Z.of_nat (size c)).
  - destruct (_do_cmp fs k.1 k.2 ∅) as [[o|e] c1] eqn:Hcmp; cbn.
    + apply _do_cmp_returns in Hcmp as [-> (d1 & d2 & H1 & H2 & Ho)].
      split; [by eapply cache_agrees_insert|].
      intros ? [= <-]. eauto 6.
    + pose proof (_do_cmp_leaves_cache fs k.1 k.2 ∅) as Hsame.
      rewrite Hcmp in Hsame. cbn in Hsame. by subst c1.
  - destruct (_do_cmp fs k.1 k.2 c) as [[o|e] c1] eqn:Hcmp; cbn.
    + apply _do_cmp_returns in Hcmp as [-> (d1 & d2 & H1 & H2 & Ho)].
      split; [by eapply cache_agrees_insert|].
      intros ? [= <-]. eauto 6.
    + pose proof (_do_cmp_leaves_cache fs k.1 k.2 c) as Hsame.
      rewrite Hcmp in Hsame. cbn in Hsame. by subst c1.
Qed.

Lemma run_cached_agrees fs keys c :
  cache_agrees fs c →
  cache_agrees fs (run_cached ((λ k, (fs, k)) <$> keys) c).
Proof.
  revert c. induction keys as [|k keys IH]; intros c Hc; [done|].
  cbn. apply IH. by apply cmp_cached_agrees.
Qed.

(** X23: as long as the file system stays as it is, the cache block tells
    the truth: after any lookups from an empty cache, clearings included,
    a lookup that returns answers [True] exactly when the two files hold
    the same bytes, whether the answer is computed or found in the cache. *)
Theorem cmp_cached_right_on_unchanged_files fs keys k outcome c' :
  cmp_cached fs k (run_cached ((λ k, (fs, k)) <$> keys) ∅)
  = (Return outcome, c') →
  ∃ data_1 data_2,
    open_rb fs k.1 = Return data_1 ∧ open_rb fs k.2 = Return data_2 ∧
    (outcome = true ↔ data_1 = data_2).
Proof.
  intros Hlookup.
  assert (cache_agrees fs (run_cached ((λ k, (fs, k)) <$> keys) ∅)) as Hc.
  { apply run_cached_agrees. intros k' o'. by rewrite lookup_empty. }
  destruct (cmp_cached_agrees fs k _ Hc) as [_ Hanswer].
  destruct (Hanswer outcome) as (d1 & d2 & H1 & H2 & ->).
  { by rewrite Hlookup. }
  exists d1, d2. split; [done|]. split; [done|]. apply bool_decide_eq_true.
Qed.

(** [p] against [q] a second time, from the cache, and [p] against [r]. *)
Lemma cmp_cached_right_on_unchanged_files_witness :
  (∃ data_1 data_2,
     open_rb sample_fs "p" = Return data_1 ∧
     open_rb sample_fs "q" = Return data_2 ∧
     (false = true ↔ data_1 = data_2)) ∧
  (∃ data_1 data_2,
     open_rb sample_fs "p" = Return data_1 ∧
     open_rb sample_fs "r" = Return data_2 ∧
     (true = true ↔ data_1 = data_2)).
Proof.
  split.
  - apply (cmp_cached_right_on_unchanged_files sample_fs
             [("p", "q"); ("p", "r")] ("p", "q") false
             {[("p", "q") := false; ("p", "r") := true]}).
    reflexivity.
  - apply (cmp_cached_right_on_unchanged_files sample_fs
             [("p", "q"); ("p", "r")] ("p", "r") true
             {[("p", "q") := false; ("p", "r") := true]}).
    reflexivity.
Defined.

(** ** The size of the cache under the cache block *)

(** X24: under the cache block of lines 62 to 68 alone, from an empty
    cache and through any lookups, the cache never holds more than 101
    entries, and it does hold 101: the size test of line 65 comes before
    the insertion of line 67 and lets a cache of 100 entries take one
    more, as the 101 distinct pairs of empty files show. *)
Theorem cmp_cached_bound_is_101 :
  (∀ calls, (size (run_cached calls ∅) ≤ 101)%nat) ∧
  NoDup distinct_pairs ∧
  length distinct_pairs = 101%nat ∧
  size (run_cached ((λ k, (empty_files, k)) <$> distinct_pairs) ∅) = 101%nat.
Proof.
  split; [|split; [|split]].
  - intros calls. apply run_cached_size. rewrite map_size_empty. lia.
  - apply (bool_decide_unpack (NoDup distinct_pairs)). by vm_compute.
  - reflexivity.
  - by vm_compute.
Qed.
